(** * Load-generation definitions of the repository

    A shallow embedding of [src/tests/load/locustfile.py] (the behaviour
    profile [VibeZUser] and the load shape [WaveShape]) and of the think-time
    configuration and task weights of [locustfile.py] ([ApiUser], [WSUser]).

    Conventions.
    - Python ints are [Z].  Python floats that carry time (the run time, the
      pauses) are [Q]: every finite float is a rational, and Python compares a
      float with an int exactly, so [Qlt] is the comparison the code performs.
      Arithmetic on pauses is exact: the rounding of float operations is not
      part of the model.
    - A Python dict is a [gmap string Z]; reading a missing key raises
      [KeyError].
    - [tick] is given twice: as a function of the stage list and the run
      time ([WaveShape.tick]), and as a program on the store of the
      interpreter ([Store.tick]), where a write would show; the two are
      proved to agree.
    - The random module is made explicit: a call to [random.random()] is an
      argument [r] with [0 <= r < 1], a call to [_randbelow n] is an index
      below [n]. *)

From Stdlib Require Import ZArith QArith Lqa List Sorted Lia.
From stdpp Require Import base option list strings gmap pretty.

Local Open Scope Z_scope.

(** ** Python results *)

Inductive exn : Type :=
  | KeyError (key : string)
  | IndexError
  | ReadTimeout
  | ConnectionError
  | OtherException (name : string).

Inductive result (A : Type) : Type :=
  | Ok (a : A)
  | Raise (e : exn).
Arguments Ok {A} a.
Arguments Raise {A} e.

#[global] Instance result_ret : MRet result := @Ok.
#[global] Instance result_bind : MBind result := fun A B k m =>
  match m with
  | Ok a => k a
  | Raise e => Raise e
  end.

(** [d[k]] on a dict. *)
Definition getitem (d : gmap string Z) (k : string) : result Z :=
  match d !! k with
  | Some v => Ok v
  | None => Raise (KeyError k)
  end.

(** [x < n] for a float [x] and an int [n]. *)
Definition float_lt_int (x : Q) (n : Z) : bool :=
  (Qnum x <? n * Zpos (Qden x))%Z.

(** ** The random module, with its source of randomness made explicit *)

Module random.

(** [random.uniform(a, b)] is [a + (b - a) * self.random()]; [r] is the
    value of [self.random()]. *)
Definition uniform (a b r : Q) : Q := (a + (b - a) * r)%Q.

(** [random.choice(seq)] is [seq[self._randbelow(len(seq))]]; [i] is the
    value of [_randbelow]. *)
Definition choice {A} (seq : list A) (i : nat) : result A :=
  match seq !! i with
  | Some x => Ok x
  | None => Raise IndexError
  end.

End random.

(** Probability of an event over a finite sample space whose points are
    equally likely. *)
Definition count {A} (ev : A -> bool) (space : list A) : nat :=
  length (List.filter ev space).

Definition prob {A} (space : list A) (ev : A -> bool) : Q :=
  (inject_Z (Z.of_nat (count ev space))
   / inject_Z (Z.of_nat (length space)))%Q.

(** The values [_randbelow(n)] can take, each as likely as the others. *)
Definition randbelow (n : nat) : list nat := seq 0 n.

(** Two draws made one after the other: the pairs of their values. *)
Definition two_draws {A B} (first : list A) (second : list B) : list (A * B) :=
  list_prod first second.

Definition both {A B} (ev1 : A -> bool) (ev2 : B -> bool) (p : A * B) : bool :=
  ev1 p.1 && ev2 p.2.

(** ** Tasks: what a task does, and how it ends *)

Record response : Type := { status_code : Z }.

Inductive event : Type :=
  | Request (url name : string) (timeout : option Q)
  | Sleep (seconds : Q)
  | Success
  | Failure (message : string).

Record task (A : Type) : Type := Task { log : list event; outcome : result A }.
Arguments Task {A} log outcome.
Arguments log {A} _.
Arguments outcome {A} _.

#[global] Instance task_ret : MRet task := fun A a => Task [] (Ok a).
#[global] Instance task_bind : MBind task := fun A B k m =>
  match outcome m with
  | Ok a => Task (log m ++ log (k a)) (outcome (k a))
  | Raise e => Task (log m) (Raise e)
  end.

Definition emit (e : event) : task unit := Task [e] (Ok tt).

Definition lift {A} (m : result A) : task A := Task [] m.

(** [try: body / except: handler] with a bare [except]. *)
Definition try_except {A} (body : task A) (handler : task A) : task A :=
  match outcome body with
  | Ok a => body
  | Raise _ => Task (log body ++ log handler) (outcome handler)
  end.

(** [self.client.get(url, name=name, timeout=timeout)]; [answer] is what the
    HTTP session gives back for the request: a response or an exception. *)
Definition client_get (answer : result response)
    (url name : string) (timeout : option Q) : task response :=
  _ ← emit (Request url name timeout); lift answer.

(** [time.sleep(seconds)]. *)
Definition sleep (seconds : Q) : task unit := emit (Sleep seconds).

(** ** Think time *)

(** Modelled from the spec: [between] is imported from the locust package and
    its body is not among the sources.  The spec has [thinkTime()] return
    a value drawn uniformly from the inclusive range [[min, max]]: the point
    of the range at the fraction [r] of its width, for a uniform [r]. *)
Definition between (min_wait max_wait : Q) (r : Q) : Q :=
  (min_wait + r * (max_wait - min_wait))%Q.

Definition width (range : Q * Q) : Q := (snd range - fst range)%Q.

(** ** Choice of the next task *)

(** Modelled from the spec: the harness that picks the next task of a user is
    not among the sources.  The spec has it select an action with probability
    weight / sum of the weights: a uniform draw [j] among as many slots per
    task as its weight. *)
Definition slots (tasks : list (string * nat)) : list string :=
  flat_map (fun t => repeat t.1 t.2) tasks.

Definition select_action (tasks : list (string * nat)) (j : nat)
  : result string :=
  random.choice (slots tasks) j.

Definition selects (tasks : list (string * nat)) (name : string) (j : nat)
  : bool :=
  match select_action tasks j with
  | Ok a => String.eqb a name
  | Raise _ => false
  end.

(** ** What a task has recorded *)

Definition records_success {A} (t : task A) : Prop := Success ∈ log t.

Definition records_failure {A} (t : task A) : Prop :=
  exists message, Failure message ∈ log t.

(** ** What the session counts for a request *)





(** ** VibeZUser *)

Module VibeZUser.

Definition think_range : Q * Q := (1, 5)%Q.

Definition wait_time : Q -> Q := between (fst think_range) (snd think_range).

(** The weights given by the [@task(n)] decorators. *)
Definition tasks : list (string * nat) :=
  [ ("index", 10); ("view_room", 5); ("auth_callback_smoke", 2);
    ("websocket_fallback_simulation", 3); ("chaos_monkey", 1) ]%nat.

Definition index (answer : result response) : task unit :=
  _ ← client_get answer "/" "Home" None; mret tt.

Definition view_room (answer : result response) : task unit :=
  _ ← client_get answer "/api/rooms/general" "View Room" None; mret tt.

Definition auth_callback_smoke (answer : result response) : task unit :=
  _ ← client_get answer
        "/auth/callback?code=smoke_test_code&state=smoke_test_state"
        "/auth/callback" None;
  mret tt.

Definition websocket_fallback_simulation (answer : result response)
  : task unit :=
  response ← client_get answer "/api/messages?roomId=general&limit=20"
               "WS Fallback (HTTP Poll)" None;
  if bool_decide (status_code response ∈ [200; 401; 403]) then
    emit Success
  else
    emit (Failure ("Unexpected status: " +:+ pretty (status_code response))).

Definition chaos_actions : list string := ["latency"; "drop"; "normal"].

Definition latency_range : Q * Q := (1 # 2, 2)%Q.

Definition drop_timeout : Q := (1 # 1000)%Q.

(** [random.choice(["latency", "drop", "normal"])], [i] being the index
    drawn. *)
Definition chaos_action (i : nat) : result string :=
  random.choice chaos_actions i.

(** The draw [i] selects the branch [label]. *)
Definition is_action (label : string) (i : nat) : bool :=
  match chaos_action i with
  | Ok a => String.eqb a label
  | Raise _ => false
  end.

(** [i] is the index drawn by [random.choice], [r] the value drawn by
    [random.uniform]. *)
Definition chaos_monkey (i : nat) (r : Q) (answer : result response)
  : task unit :=
  action ← lift (chaos_action i);
  if String.eqb action "latency" then
    _ ← sleep (random.uniform (fst latency_range) (snd latency_range) r);
    _ ← client_get answer "/api/health" "Chaos: Latency" None;
    mret tt
  else if String.eqb action "drop" then
    try_except
      (_ ← client_get answer "/api/health" "Chaos: Packet Drop"
             (Some drop_timeout);
       mret tt)
      (mret tt)
  else
    _ ← client_get answer "/api/health" "Chaos: Normal" None;
    mret tt.

(** The name under which each branch files its request. *)
Definition branch_name (label : string) : option string :=
  if String.eqb label "latency" then Some "Chaos: Latency"
  else if String.eqb label "drop" then Some "Chaos: Packet Drop"
  else if String.eqb label "normal" then Some "Chaos: Normal"
  else None.

Definition has_request_named (name : string) (e : event) : bool :=
  match e with
  | Request _ n _ => String.eqb n name
  | _ => false
  end.

(** The run went through the branch [label]: it issued the request of that
    branch. *)
Definition took_branch (label : string) (run : task unit) : bool :=
  match branch_name label with
  | Some name => existsb (has_request_named name) (log run)
  | None => false
  end.

(** The tasks of the class by name; [i] and [r] are the draws a task may
    make, and only [chaos_monkey] makes any. *)
Definition task_of (name : string)
  : option (nat -> Q -> result response -> task unit) :=
  if String.eqb name "index" then Some (fun _ _ => index)
  else if String.eqb name "view_room" then Some (fun _ _ => view_room)
  else if String.eqb name "auth_callback_smoke"
  then Some (fun _ _ => auth_callback_smoke)
  else if String.eqb name "websocket_fallback_simulation"
  then Some (fun _ _ => websocket_fallback_simulation)
  else if String.eqb name "chaos_monkey" then Some chaos_monkey
  else None.

End VibeZUser.

(** One step of a user: the task at the slot [p.1] of the weighted choice is
    run, with [p.2] the index its [random.choice] draws if it makes one.  The
    event: that step is the chaos task going through the branch [label]. *)
Definition step_takes_branch (tasks : list (string * nat)) (label : string)
    (r : Q) (answer : result response) (p : nat * nat) : bool :=
  match select_action tasks p.1 with
  | Ok name =>
      match VibeZUser.task_of name with
      | Some run => VibeZUser.took_branch label (run p.2 r answer)
      | None => false
      end
  | Raise _ => false
  end.

(** ** ApiUser and WSUser (locustfile.py) *)

Module ApiUser.

Definition think_range : Q * Q := (5, 10)%Q.

Definition wait_time : Q -> Q := between (fst think_range) (snd think_range).

Definition tasks : list (string * nat) :=
  [ ("get_user", 7); ("create_room", 3) ]%nat.

End ApiUser.

Module WSUser.

Definition think_range : Q * Q := (5, 10)%Q.

Definition wait_time : Q -> Q := between (fst think_range) (snd think_range).

Definition tasks : list (string * nat) :=
  [ ("join_room", 7); ("broadcast", 3) ]%nat.

End WSUser.

(** ** WaveShape *)

Module WaveShape.

Record t : Type := { stages : list (gmap string Z) }.

Definition stage (duration users spawn_rate : Z) : gmap string Z :=
  {[ "duration" := duration; "users" := users; "spawn_rate" := spawn_rate ]}.

(** The class attribute [stages]. *)
Definition configured : t :=
  {| stages :=
       [ stage 60 100 10;
         stage 120 500 20;
         stage 180 1000 50;
         stage 240 2000 100;
         stage 300 500 50 ] |}.

(** The [for stage in self.stages] loop followed by [return None]. *)
Fixpoint scan (stages : list (gmap string Z)) (run_time : Q)
  : result (option (Z * Z)) :=
  match stages with
  | [] => Ok None
  | stage :: rest =>
      duration ← getitem stage "duration";
      if float_lt_int run_time duration then
        users ← getitem stage "users";
        spawn_rate ← getitem stage "spawn_rate";
        mret (Some (users, spawn_rate))
      else scan rest run_time
  end.

(** [tick], with the value of [self.get_run_time()] as an argument; the
    second component is the object after the call. *)
Definition tick (self : t) (run_time : Q) : result (option (Z * Z)) * t :=
  (scan (stages self) run_time, self).

End WaveShape.


(** ** The shape object in the store

    [tick] once more, this time as a program that runs on the store the
    interpreter keeps: the list object bound to [WaveShape.stages], the dict
    objects the list refers to, and the run time the runner owns.  A program
    takes a store and gives back the store it leaves; nothing in this type
    keeps a program from writing. *)

Module Store.

Record t : Type :=
  { stage_list : list positive;
    dicts : gmap positive (gmap string Z);
    clock : Q }.

(** How a run ends: with a Python result, or cut short by the bound on the
    turns of a loop. *)
Inductive run (A : Type) : Type :=
  | Done (r : result A)
  | OutOfFuel.
Arguments Done {A} r.
Arguments OutOfFuel {A}.

Record prog (A : Type) : Type := Prog { exec : t -> run A * t }.
Arguments Prog {A} exec.
Arguments exec {A} _ _.

#[global] Instance prog_ret : MRet prog :=
  fun A a => Prog (fun h => (Done (Ok a), h)).
#[global] Instance prog_bind : MBind prog := fun A B k m =>
  Prog (fun h =>
          match exec m h with
          | (Done (Ok a), h') => exec (k a) h'
          | (Done (Raise e), h') => (Done (Raise e), h')
          | (OutOfFuel, h') => (OutOfFuel, h')
          end).

(** [self.get_run_time()]. *)
Definition get_run_time : prog Q :=
  Prog (fun h => (Done (Ok (clock h)), h)).

(** One step of the iterator of the list: the item at index [i] of the list
    as it is now, or nothing when [i] is past its end. *)
Definition list_next (i : nat) : prog (option positive) :=
  Prog (fun h => (Done (Ok (stage_list h !! i)), h)).

(** [stage[key]] on the dict object at [stage].  Every reference of a Python
    store leads to an object; should none be there the model raises. *)
Definition dict_getitem (stage : positive) (key : string) : prog Z :=
  Prog (fun h =>
          match dicts h !! stage with
          | Some d => (Done (getitem d key), h)
          | None => (Done (Raise (OtherException "SystemError")), h)
          end).

(** [stage[key] = value]: the write a dict object offers. *)
Definition dict_setitem (stage : positive) (key : string) (value : Z)
  : prog unit :=
  Prog (fun h =>
          (Done (Ok tt),
           {| stage_list := stage_list h;
              dicts := alter (fun d => <[key := value]> d) stage (dicts h);
              clock := clock h |})).

(** How the body of a loop ends a turn: it falls through to the next turn, or
    returns from the function. *)
Inductive flow (A : Type) : Type :=
  | Next
  | Return (a : A).
Arguments Next {A}.
Arguments Return {A} a.

(** [for stage in self.stages: body], from index [i] on, for at most [fuel]
    steps of the iterator. *)
Fixpoint for_stages {A} (fuel i : nat) (body : positive -> prog (flow A))
  : prog (flow A) :=
  match fuel with
  | O => Prog (fun h => (OutOfFuel, h))
  | S fuel =>
      item ← list_next i;
      match item with
      | None => mret Next
      | Some stage =>
          turn ← body stage;
          match turn with
          | Next => for_stages fuel (S i) body
          | Return a => mret (Return a)
          end
      end
  end.

(** The body of the loop of [tick]. *)
Definition tick_body (run_time : Q) (stage : positive)
  : prog (flow (option (Z * Z))) :=
  duration ← dict_getitem stage "duration";
  if float_lt_int run_time duration then
    users ← dict_getitem stage "users";
    spawn_rate ← dict_getitem stage "spawn_rate";
    mret (Return (Some (users, spawn_rate)))
  else mret Next.

Definition tick (fuel : nat) : prog (option (Z * Z)) :=
  run_time ← get_run_time;
  turn ← for_stages fuel 0 (tick_body run_time);
  match turn with
  | Return tick_data => mret tick_data
  | Next => mret None
  end.

(** The dict objects the list of the store refers to, in order. *)
Definition resolves (h : t) (stages : list (gmap string Z)) : Prop :=
  Forall2 (fun stage d => dicts h !! stage = Some d) (stage_list h) stages.

End Store.

(** ** The ordering invariant of a stage list *)

(** The duration boundaries, in the order of the list. *)
Definition boundaries (stages : list (gmap string Z)) : result (list Z) :=
  mapM (fun stage => getitem stage "duration") stages.

(** ** Stage lists given as triples *)

(** A stage as the triple (duration, users, spawn_rate). *)
Definition stage_of (s : Z * Z * Z) : gmap string Z :=
  WaveShape.stage s.1.1 s.1.2 s.2.

Definition shape_of (l : list (Z * Z * Z)) : WaveShape.t :=
  {| WaveShape.stages := stage_of <$> l |}.

(** The stage has ended at [run_time]. *)
Definition ended (run_time : Q) (s : Z * Z * Z) : Prop :=
  (inject_Z s.1.1 <= run_time)%Q.

(** The stage list of the example in the properties of the spec. *)
Definition spec_example : list (Z * Z * Z) :=
  [ (60, 100, 10); (120, 500, 20); (180, 1000, 50) ].

(** The dict has a duration entry, and its boundary has passed. *)
Definition passed (run_time : Q) (stage : gmap string Z) : Prop :=
  exists duration,
    stage !! "duration" = Some duration /\ (inject_Z duration <= run_time)%Q.

(** The duration boundaries of a list of triples. *)
Definition durations (l : list (Z * Z * Z)) : list Z := (fun s => s.1.1) <$> l.

(** ** Observations on the log of a task *)

Definition is_request (e : event) : bool :=
  match e with
  | Request _ _ _ => true
  | _ => false
  end.

(** The HTTP requests a task has issued, in order. *)
Definition requests {A} (t : task A) : list event :=
  List.filter is_request (log t).

(** The task has slept before or after its requests. *)
Definition sleeps {A} (t : task A) : Prop := exists seconds, Sleep seconds ∈ log t.

(** The task has set a timeout on one of its requests. *)
Definition sets_timeout {A} (t : task A) : Prop :=
  exists url name seconds, Request url name (Some seconds) ∈ log t.

(** * Properties *)

(** ** Comparison and dict lookup *)

Lemma float_lt_int_spec (x : Q) (n : Z) :
  float_lt_int x n = true <-> (x < inject_Z n)%Q.
Proof.
  unfold float_lt_int, Qlt; simpl.
  rewrite Z.ltb_lt, Z.mul_1_r. reflexivity.
Qed.

Lemma float_lt_int_false (x : Q) (n : Z) :
  float_lt_int x n = false <-> (inject_Z n <= x)%Q.
Proof.
  unfold float_lt_int, Qle; simpl.
  rewrite Z.ltb_ge, Z.mul_1_r. reflexivity.
Qed.

Section stage_lookups.
Variables duration users spawn_rate : Z.

Lemma stage_duration :
  getitem (WaveShape.stage duration users spawn_rate) "duration"
  = Ok duration.
Proof. unfold getitem, WaveShape.stage. by simplify_map_eq. Qed.

Lemma stage_users :
  getitem (WaveShape.stage duration users spawn_rate) "users" = Ok users.
Proof. unfold getitem, WaveShape.stage. by simplify_map_eq. Qed.

Lemma stage_spawn_rate :
  getitem (WaveShape.stage duration users spawn_rate) "spawn_rate"
  = Ok spawn_rate.
Proof. unfold getitem, WaveShape.stage. by simplify_map_eq. Qed.

(** One turn of the loop on a well-formed stage. *)
Lemma scan_stage (rest : list (gmap string Z)) (run_time : Q) :
  WaveShape.scan (WaveShape.stage duration users spawn_rate :: rest) run_time
  = if float_lt_int run_time duration
    then Ok (Some (users, spawn_rate))
    else WaveShape.scan rest run_time.
Proof.
  cbn [WaveShape.scan]. rewrite stage_duration. cbn [mbind result_bind].
  destruct (float_lt_int run_time duration); [|reflexivity].
  rewrite stage_users, stage_spawn_rate. reflexivity.
Qed.
End stage_lookups.

Lemma scan_skip (pre : list (Z * Z * Z)) (rest : list (gmap string Z))
    (run_time : Q) :
  Forall (ended run_time) pre ->
  WaveShape.scan ((stage_of <$> pre) ++ rest) run_time
  = WaveShape.scan rest run_time.
Proof.
  induction 1 as [|[[d u] s] pre Hd _ IH]; [reflexivity|].
  rewrite fmap_cons. cbn [app]. unfold stage_of at 1. rewrite scan_stage.
  apply float_lt_int_false in Hd. cbn in Hd. cbn [fst snd]. rewrite Hd.
  exact IH.
Qed.


(** ** The load shape *)

Lemma scan_first_open (pre post : list (Z * Z * Z)) (d u s : Z)
    (run_time : Q) :
  Forall (ended run_time) pre ->
  (run_time < inject_Z d)%Q ->
  WaveShape.scan (stage_of <$> pre ++ (d, u, s) :: post) run_time
  = Ok (Some (u, s)).
Proof.
  intros Hpre Hd. rewrite fmap_app, scan_skip by assumption.
  rewrite fmap_cons. unfold stage_of at 1. cbn [fst snd].
  rewrite scan_stage. apply float_lt_int_spec in Hd. rewrite Hd. reflexivity.
Qed.

Lemma scan_all_ended (l : list (Z * Z * Z)) (run_time : Q) :
  Forall (ended run_time) l ->
  WaveShape.scan (stage_of <$> l) run_time = Ok None.
Proof.
  intros Hl. rewrite <- (app_nil_r (stage_of <$> l)).
  rewrite scan_skip by assumption. reflexivity.
Qed.

(** On well-formed stages the loop never raises, and its two exits are the
    two cases of the spec. *)
Lemma scan_cases (l : list (Z * Z * Z)) (run_time : Q) :
  (Forall (ended run_time) l
   /\ WaveShape.scan (stage_of <$> l) run_time = Ok None)
  \/ (exists pre d u s post,
        l = pre ++ (d, u, s) :: post
        /\ Forall (ended run_time) pre
        /\ (run_time < inject_Z d)%Q
        /\ WaveShape.scan (stage_of <$> l) run_time = Ok (Some (u, s))).
Proof.
  induction l as [|[[d u] s] l IH].
  - left. split; [constructor | reflexivity].
  - destruct (float_lt_int run_time d) eqn:Hd.
    + right. exists [], d, u, s, l.
      apply float_lt_int_spec in Hd.
      split; [reflexivity|]. split; [constructor|]. split; [assumption|].
      apply (scan_first_open []); [constructor | assumption].
    + apply float_lt_int_false in Hd.
      assert (He : ended run_time (d, u, s)) by exact Hd.
      destruct IH as [[Hall Hscan] | (pre & d' & u' & s' & post & -> & Hpre & Hd' & Hscan)].
      * left. split; [constructor; assumption|].
        apply scan_all_ended. constructor; assumption.
      * right. exists ((d, u, s) :: pre), d', u', s', post.
        split; [reflexivity|]. split; [constructor; assumption|].
        split; [assumption|].
        apply (scan_first_open ((d, u, s) :: pre)); [constructor|]; assumption.
Qed.

(** C1.  For every list of stages and every non-negative elapsed time, [tick] returns the (users, spawn_rate) pair of the first stage, in
    the order of the list, whose duration boundary is strictly greater than
    the elapsed time, and returns [None] when the elapsed time has reached
    the boundary of every stage.  On the stages [(60,100,10)], [(120,500,20)],
    [(180,1000,50)]: [tick(30) = (100,10)], [tick(60) = (500,20)] and
    [tick(200) = None]. *)
Theorem tick_first_open_stage :
  (forall (l : list (Z * Z * Z)) (elapsed : Q),
      (0 <= elapsed)%Q ->
      (forall pre d u s post,
          l = pre ++ (d, u, s) :: post ->
          Forall (ended elapsed) pre ->
          (elapsed < inject_Z d)%Q ->
          (WaveShape.tick (shape_of l) elapsed).1 = Ok (Some (u, s)))
      /\ (Forall (ended elapsed) l ->
          (WaveShape.tick (shape_of l) elapsed).1 = Ok None))
  /\ (WaveShape.tick (shape_of spec_example) 30).1 = Ok (Some (100, 10))
  /\ (WaveShape.tick (shape_of spec_example) 60).1 = Ok (Some (500, 20))
  /\ (WaveShape.tick (shape_of spec_example) 200).1 = Ok None.
Proof.
  split.
  - intros l elapsed _. split.
    + intros pre d u s post -> Hpre Hd. cbn. by apply scan_first_open.
    + intros Hl. cbn. by apply scan_all_ended.
  - repeat split; vm_compute; reflexivity.
Qed.

Lemma tick_first_open_stage_witness :
  (WaveShape.tick (shape_of spec_example) 60).1 = Ok (Some (500, 20))
  /\ (WaveShape.tick (shape_of spec_example) 180).1 = Ok None.
Proof.
  split.
  - apply (proj1 (proj1 tick_first_open_stage spec_example 60%Q ltac:(discriminate))
             [(60, 100, 10)] 120 500 20 [(180, 1000, 50)]).
    + reflexivity.
    + repeat constructor. discriminate.
    + reflexivity.
  - apply (proj2 (proj1 tick_first_open_stage spec_example 180%Q ltac:(discriminate))).
    repeat constructor; discriminate.
Defined.

(** C6.  When the stage sequence is empty, [tick] returns [None] at every
    elapsed time, and it returns: no exception is raised. *)
Theorem tick_empty_stages (self : WaveShape.t) (elapsed : Q) :
  WaveShape.stages self = [] ->
  (WaveShape.tick self elapsed).1 = Ok None.
Proof. intros Hnil. unfold WaveShape.tick. cbn [fst]. by rewrite Hnil. Qed.

Lemma tick_empty_stages_witness :
  (WaveShape.tick {| WaveShape.stages := [] |} (75 # 2)).1 = Ok None.
Proof. apply tick_empty_stages. reflexivity. Defined.

(** *** [tick] on the store *)

Lemma exec_bind {A B} (m : Store.prog A) (k : A -> Store.prog B)
    (h : Store.t) :
  Store.exec (m ≫= k) h
  = match Store.exec m h with
    | (Store.Done (Ok a), h') => Store.exec (k a) h'
    | (Store.Done (Raise e), h') => (Store.Done (Raise e), h')
    | (Store.OutOfFuel, h') => (Store.OutOfFuel, h')
    end.
Proof. reflexivity. Qed.

Lemma exec_ret {A} (a : A) (h : Store.t) :
  Store.exec (mret a) h = (Store.Done (Ok a), h).
Proof. reflexivity. Qed.

Lemma dict_getitem_exec (h : Store.t) (stage : positive) (key : string) :
  exists r, Store.exec (Store.dict_getitem stage key) h = (Store.Done r, h).
Proof.
  unfold Store.dict_getitem. cbn [Store.exec].
  destruct (Store.dicts h !! stage); eauto.
Qed.

(** A turn of the loop ends and leaves the store as it found it. *)
Lemma tick_body_exec (h : Store.t) (run_time : Q) (stage : positive) :
  exists r,
    Store.exec (Store.tick_body run_time stage) h = (Store.Done r, h).
Proof.
  unfold Store.tick_body. rewrite exec_bind.
  destruct (dict_getitem_exec h stage "duration") as [[d | e] ->]; [|eauto].
  destruct (float_lt_int run_time d); [|rewrite exec_ret; eauto].
  rewrite exec_bind.
  destruct (dict_getitem_exec h stage "users") as [[u | e] ->]; [|eauto].
  rewrite exec_bind.
  destruct (dict_getitem_exec h stage "spawn_rate") as [[s | e] ->];
    [rewrite exec_ret|]; eauto.
Qed.

Lemma for_stages_S {A} (fuel i : nat) (body : positive -> Store.prog (Store.flow A))
    (h : Store.t) :
  Store.exec (Store.for_stages (S fuel) i body) h
  = match Store.stage_list h !! i with
    | None => (Store.Done (Ok Store.Next), h)
    | Some stage =>
        match Store.exec (body stage) h with
        | (Store.Done (Ok Store.Next), h') =>
            Store.exec (Store.for_stages fuel (S i) body) h'
        | (Store.Done (Ok (Store.Return a)), h') =>
            (Store.Done (Ok (Store.Return a)), h')
        | (Store.Done (Raise e), h') => (Store.Done (Raise e), h')
        | (Store.OutOfFuel, h') => (Store.OutOfFuel, h')
        end
    end.
Proof.
  cbn [Store.for_stages]. rewrite exec_bind. unfold Store.list_next at 1.
  cbn [Store.exec].
  destruct (Store.stage_list h !! i) as [stage|]; [|reflexivity].
  rewrite exec_bind.
  destruct (Store.exec (body stage) h) as [[[[|a] | e] |] h']; reflexivity.
Qed.

(** The loop leaves the store as it found it, and ends when it is given more
    steps than the list has items left. *)
Lemma for_stages_exec (fuel i : nat) (h : Store.t) (run_time : Q) :
  exists x,
    Store.exec (Store.for_stages fuel i (Store.tick_body run_time)) h = (x, h)
    /\ ((length (Store.stage_list h) - i < fuel)%nat -> x <> Store.OutOfFuel).
Proof.
  revert i. induction fuel as [|fuel IH]; intros i.
  - eexists. split; [reflexivity|]. lia.
  - rewrite for_stages_S.
    destruct (Store.stage_list h !! i) as [stage|] eqn:Hi.
    + destruct (tick_body_exec h run_time stage) as [[[|v] | e] ->].
      * destruct (IH (S i)) as (x & -> & Hx). exists x.
        split; [reflexivity|]. intros Hlt. apply Hx.
        apply lookup_lt_Some in Hi. lia.
      * eexists. split; [reflexivity | discriminate].
      * eexists. split; [reflexivity | discriminate].
    + eexists. split; [reflexivity | discriminate].
Qed.

(** With the dict objects in hand, the loop on the store computes what
    [WaveShape.scan] computes on their list. *)
Lemma for_stages_scan (fuel i : nat) (h : Store.t) (run_time : Q)
    (stages : list (gmap string Z)) :
  Forall2 (fun stage d => Store.dicts h !! stage = Some d)
          (drop i (Store.stage_list h)) stages ->
  (length stages < fuel)%nat ->
  Store.exec
    (turn ← Store.for_stages fuel i (Store.tick_body run_time);
     match turn with
     | Store.Return tick_data => mret tick_data
     | Store.Next => mret None
     end) h
  = (Store.Done (WaveShape.scan stages run_time), h).
Proof.
  revert i stages. induction fuel as [|fuel IH]; intros i stages HF Hlen;
    [lia|].
  specialize (IH (S i)). rewrite exec_bind, for_stages_S.
  destruct (Store.stage_list h !! i) as [stage|] eqn:Hi.
  - rewrite (drop_S _ _ _ Hi) in HF.
    apply Forall2_cons_inv_l in HF as (d & rest & Hd & HF & ->).
    cbn [length] in Hlen. specialize (IH rest HF ltac:(lia)).
    rewrite exec_bind in IH.
    unfold Store.tick_body. rewrite exec_bind.
    unfold Store.dict_getitem at 1. cbn [Store.exec WaveShape.scan].
    rewrite Hd.
    destruct (getitem d "duration") as [dur|e]; [|reflexivity].
    cbn [mbind result_bind].
    destruct (float_lt_int run_time dur).
    + rewrite exec_bind. unfold Store.dict_getitem at 1. cbn [Store.exec].
      rewrite Hd.
      destruct (getitem d "users") as [u|e]; [|reflexivity].
      rewrite exec_bind. unfold Store.dict_getitem at 1. cbn [Store.exec].
      rewrite Hd.
      destruct (getitem d "spawn_rate") as [sp|e]; reflexivity.
    + rewrite exec_ret. exact IH.
  - apply lookup_ge_None in Hi. rewrite drop_ge in HF by assumption.
    apply Forall2_nil_inv_l in HF as ->. reflexivity.
Qed.

(** The write the store offers does change the store. *)
Lemma dict_setitem_writes :
  let h := {| Store.stage_list := [1%positive];
              Store.dicts := {[ 1%positive := {[ "duration" := 60 ]} ]};
              Store.clock := 0 |} in
  (Store.exec (Store.dict_setitem 1 "duration" 0) h).2 <> h.
Proof. cbn. intros H. injection H as H. vm_compute in H. discriminate H. Qed.

(** C7.  [tick] run on the store, for every store (every stage list, every
    content of the stage dicts, every run time): the call returns and leaves
    the store, that is the stage list, the stage dicts and the clock, exactly
    as it found it; a second call at the same run time returns the same
    result and leaves the same store; and the result is the one of
    [WaveShape.tick] on the dicts of the list. *)
Theorem tick_pure (h : Store.t) (fuel : nat) :
  (length (Store.stage_list h) < fuel)%nat ->
  exists r,
    Store.exec (Store.tick fuel) h = (Store.Done r, h)
    /\ Store.exec (Store.tick fuel) (Store.exec (Store.tick fuel) h).2
       = (Store.Done r, h)
    /\ (forall stages,
           Store.resolves h stages ->
           r = (WaveShape.tick {| WaveShape.stages := stages |}
                               (Store.clock h)).1).
Proof.
  intros Hfuel.
  destruct (for_stages_exec fuel 0 h (Store.clock h)) as (x & Hx & Hdone).
  specialize (Hdone ltac:(lia)).
  destruct x as [r0|]; [|contradiction]. clear Hdone.
  assert (Hrun : exists r, Store.exec (Store.tick fuel) h = (Store.Done r, h)).
  { unfold Store.tick. rewrite exec_bind. unfold Store.get_run_time at 1.
    cbn [Store.exec]. rewrite exec_bind, Hx.
    destruct r0 as [[|v] | e]; [rewrite exec_ret | rewrite exec_ret |];
      eauto. }
  destruct Hrun as [r Hr]. exists r. split_and!.
  - exact Hr.
  - rewrite Hr. cbn [snd]. exact Hr.
  - intros stages Hres. unfold Store.resolves in Hres.
    pose proof (for_stages_scan fuel 0 h (Store.clock h) stages) as Hscan.
    rewrite drop_0 in Hscan. specialize (Hscan Hres).
    rewrite <- (Forall2_length _ _ _ Hres) in Hscan.
    specialize (Hscan Hfuel).
    unfold Store.tick in Hr. rewrite exec_bind in Hr.
    unfold Store.get_run_time at 1 in Hr. cbn [Store.exec] in Hr.
    rewrite Hscan in Hr. by injection Hr as <-.
Qed.

Lemma tick_pure_witness :
  let h := {| Store.stage_list := [1; 2; 1]%positive;
              Store.dicts :=
                {[ 1%positive := WaveShape.stage 60 100 10;
                   2%positive := WaveShape.stage 120 500 20 ]};
              Store.clock := 90 |} in
  exists r,
    Store.exec (Store.tick 4) h = (Store.Done r, h)
    /\ r = Ok (Some (500, 20)).
Proof.
  intros h.
  destruct (tick_pure h 4 ltac:(cbn; lia)) as (r & Hr & _ & Hscan).
  exists r. split; [exact Hr|].
  apply (Hscan [ WaveShape.stage 60 100 10; WaveShape.stage 120 500 20;
                 WaveShape.stage 60 100 10 ]).
  repeat constructor.
Defined.

(** C8.  The duration boundaries of the configured stages are
    60, 120, 180, 240, 300, each strictly smaller than the next. *)
Theorem configured_boundaries_increase :
  exists ds : list Z,
    boundaries (WaveShape.stages WaveShape.configured) = Ok ds
    /\ ds = [60; 120; 180; 240; 300]
    /\ Sorted Z.lt ds.
Proof.
  exists [60; 120; 180; 240; 300]. split; [|split].
  - vm_compute. reflexivity.
  - reflexivity.
  - repeat constructor.
Qed.

Lemma configured_as_triples :
  WaveShape.configured
  = shape_of [ (60, 100, 10); (120, 500, 20); (180, 1000, 50);
               (240, 2000, 100); (300, 500, 50) ].
Proof. reflexivity. Qed.

(** C10.  With the five configured stages, [tick] returns [None] exactly when
    the elapsed time is at least 300, and returns a (users, spawn_rate) pair
    at every elapsed time below 300. *)
Theorem configured_ends_at_300 (elapsed : Q) :
  ((WaveShape.tick WaveShape.configured elapsed).1 = Ok None
   <-> (300 <= elapsed)%Q)
  /\ ((elapsed < 300)%Q ->
      exists users spawn_rate,
        (WaveShape.tick WaveShape.configured elapsed).1
        = Ok (Some (users, spawn_rate))).
Proof.
  unfold WaveShape.tick, WaveShape.configured. cbn [fst WaveShape.stages].
  rewrite !scan_stage. cbn [WaveShape.scan].
  destruct (float_lt_int elapsed 60) eqn:H1;
    [apply float_lt_int_spec in H1 | apply float_lt_int_false in H1;
  destruct (float_lt_int elapsed 120) eqn:H2;
    [apply float_lt_int_spec in H2 | apply float_lt_int_false in H2;
  destruct (float_lt_int elapsed 180) eqn:H3;
    [apply float_lt_int_spec in H3 | apply float_lt_int_false in H3;
  destruct (float_lt_int elapsed 240) eqn:H4;
    [apply float_lt_int_spec in H4 | apply float_lt_int_false in H4;
  destruct (float_lt_int elapsed 300) eqn:H5;
    [apply float_lt_int_spec in H5 | apply float_lt_int_false in H5]]]]];
    unfold inject_Z in *;
    (split; [split; [intros; try discriminate; lra | intros; try reflexivity; lra]
            | intros; try (eexists _, _; reflexivity); lra]).
Qed.

Lemma configured_ends_at_300_witness :
  ((WaveShape.tick WaveShape.configured 300).1 = Ok None)
  /\ (exists users spawn_rate,
        (WaveShape.tick WaveShape.configured (2999 # 10)).1
        = Ok (Some (users, spawn_rate))).
Proof.
  split.
  - apply (proj1 (configured_ends_at_300 300)). discriminate.
  - apply (proj2 (configured_ends_at_300 (2999 # 10))). reflexivity.
Defined.

(** ** The behaviour profile *)

Lemma ws_fallback_log (s : Z) :
  VibeZUser.websocket_fallback_simulation (Ok {| status_code := s |})
  = Task [ Request "/api/messages?roomId=general&limit=20"
             "WS Fallback (HTTP Poll)" None;
           if bool_decide (s ∈ [200; 401; 403]) then Success
           else Failure ("Unexpected status: " +:+ pretty s) ]
         (Ok tt).
Proof.
  unfold VibeZUser.websocket_fallback_simulation, client_get, emit, lift.
  cbn. destruct (bool_decide _); reflexivity.
Qed.

(** C2.  For every status code [s] of the response to the polling request,
    the task records a success if and only if [s] is 200, 401 or 403, records
    a failure if and only if [s] is none of them, and ends normally. *)
Theorem ws_fallback_success_set (s : Z) :
  let run :=
    VibeZUser.websocket_fallback_simulation (Ok {| status_code := s |}) in
  (records_success run <-> s = 200 \/ s = 401 \/ s = 403)
  /\ (records_failure run <-> ~ (s = 200 \/ s = 401 \/ s = 403))
  /\ outcome run = Ok tt.
Proof.
  cbn zeta. rewrite ws_fallback_log.
  unfold records_success, records_failure. cbn [log outcome].
  assert (Hin : s ∈ [200; 401; 403] <-> s = 200 \/ s = 401 \/ s = 403).
  { rewrite !elem_of_cons, elem_of_nil. tauto. }
  rewrite <- Hin.
  case_bool_decide as Hs; split_and!; try reflexivity.
  - split; [done|]. intros _. rewrite !elem_of_cons. auto.
  - split; [|done]. intros [m Hm]. revert Hm.
    rewrite !elem_of_cons, elem_of_nil. intros [?|[?|[]]]; discriminate.
  - split; [|done].
    rewrite !elem_of_cons, elem_of_nil. intros [?|[?|[]]]; discriminate.
  - split; [done|]. intros _. eexists. rewrite !elem_of_cons. auto.
Qed.

Lemma ws_fallback_success_set_witness :
  records_success
    (VibeZUser.websocket_fallback_simulation (Ok {| status_code := 401 |}))
  /\ records_failure
       (VibeZUser.websocket_fallback_simulation (Ok {| status_code := 500 |})).
Proof.
  split.
  - apply (proj1 (ws_fallback_success_set 401)). right; left; reflexivity.
  - apply (proj1 (proj2 (ws_fallback_success_set 500))).
    intros [H | [H | H]]; discriminate H.
Defined.




(** The other two branches let the exception of the request through. *)
Lemma chaos_normal_propagates (r : Q) (e : exn) :
  outcome (VibeZUser.chaos_monkey 2 r (Raise e)) = Raise e.
Proof. reflexivity. Qed.

Lemma chaos_latency_propagates (r : Q) (e : exn) :
  outcome (VibeZUser.chaos_monkey 0 r (Raise e)) = Raise e.
Proof. reflexivity. Qed.

Lemma uniform_in_range (a b r : Q) :
  (a <= b)%Q -> (0 <= r)%Q -> (r <= 1)%Q ->
  (a <= random.uniform a b r)%Q /\ (random.uniform a b r <= b)%Q.
Proof. unfold random.uniform. intros Hab H0 H1. split; nra. Qed.

(** The claim of C4 as it stands, that the latency range is wider than the
    think-time range, fails: the widths are 3/2 and 4. *)
Lemma latency_range_not_wider :
  ~ (width VibeZUser.think_range < width VibeZUser.latency_range)%Q.
Proof. vm_compute. discriminate. Qed.

(** C4, amended.  In the "latency" branch the chaos task sleeps, before its
    request, for a time drawn uniformly from the range [0.5, 2.0]: every
    value drawn lies in that range, whose width 1.5 is strictly smaller than
    the width 4 of the think-time range [1, 5]. *)
Theorem latency_pause_range (i : nat) (r : Q) (answer : result response) :
  VibeZUser.chaos_action i = Ok "latency" ->
  (0 <= r)%Q -> (r < 1)%Q ->
  exists pause : Q,
    log (VibeZUser.chaos_monkey i r answer)
    = [ Sleep pause; Request "/api/health" "Chaos: Latency" None ]
    /\ pause = random.uniform (1 # 2) 2 r
    /\ (1 # 2 <= pause)%Q /\ (pause <= 2)%Q
    /\ (width VibeZUser.latency_range == 3 # 2)%Q
    /\ (width VibeZUser.think_range == 4)%Q
    /\ (width VibeZUser.latency_range < width VibeZUser.think_range)%Q.
Proof.
  intros Hlat H0 H1. exists (random.uniform (1 # 2) 2 r).
  split_and!; try reflexivity.
  - unfold VibeZUser.chaos_monkey. rewrite Hlat.
    destruct answer; reflexivity.
  - apply uniform_in_range; [discriminate | assumption | lra].
  - apply uniform_in_range; [discriminate | assumption | lra].
Qed.

Lemma latency_pause_range_witness :
  exists pause : Q,
    log (VibeZUser.chaos_monkey 0 (3 # 4) (Ok {| status_code := 200 |}))
    = [ Sleep pause; Request "/api/health" "Chaos: Latency" None ]
    /\ (pause <= 2)%Q.
Proof.
  destruct (latency_pause_range 0 (3 # 4) (Ok {| status_code := 200 |}))
    as (pause & Hlog & _ & _ & Hle & _); [reflexivity | discriminate | reflexivity |].
  exists pause. split; assumption.
Defined.

(** C5.  The think time lies within the bounds of its range, both included,
    whenever the range is not empty; it is non-negative whenever the lower
    bound is.  For [VibeZUser] it lies in [1, 5], for [ApiUser] and [WSUser]
    in [5, 10]. *)
Theorem think_time_in_range (r : Q) :
  (0 <= r)%Q -> (r <= 1)%Q ->
  (forall min_wait max_wait : Q,
      (min_wait <= max_wait)%Q ->
      (min_wait <= between min_wait max_wait r)%Q
      /\ (between min_wait max_wait r <= max_wait)%Q
      /\ ((0 <= min_wait)%Q -> (0 <= between min_wait max_wait r)%Q))
  /\ ((1 <= VibeZUser.wait_time r)%Q /\ (VibeZUser.wait_time r <= 5)%Q
      /\ (0 <= VibeZUser.wait_time r)%Q)
  /\ ((5 <= ApiUser.wait_time r)%Q /\ (ApiUser.wait_time r <= 10)%Q
      /\ (0 <= ApiUser.wait_time r)%Q)
  /\ ((5 <= WSUser.wait_time r)%Q /\ (WSUser.wait_time r <= 10)%Q
      /\ (0 <= WSUser.wait_time r)%Q).
Proof.
  intros H0 H1.
  assert (Hgen : forall lo hi : Q, (lo <= hi)%Q ->
            (lo <= between lo hi r)%Q /\ (between lo hi r <= hi)%Q).
  { intros lo hi Hlh. unfold between. split; nra. }
  split; [|split; [|split]].
  - intros lo hi Hlh. destruct (Hgen lo hi Hlh) as [Hl Hh].
    split_and!; [assumption | assumption |].
    intros Hlo. eapply Qle_trans; eassumption.
  - destruct (Hgen 1%Q 5%Q ltac:(discriminate)) as [Hl Hh].
    unfold VibeZUser.wait_time, VibeZUser.think_range. cbn [fst snd].
    split_and!; [assumption | assumption |].
    eapply Qle_trans; [|exact Hl]. discriminate.
  - destruct (Hgen 5%Q 10%Q ltac:(discriminate)) as [Hl Hh].
    unfold ApiUser.wait_time, ApiUser.think_range. cbn [fst snd].
    split_and!; [assumption | assumption |].
    eapply Qle_trans; [|exact Hl]. discriminate.
  - destruct (Hgen 5%Q 10%Q ltac:(discriminate)) as [Hl Hh].
    unfold WSUser.wait_time, WSUser.think_range. cbn [fst snd].
    split_and!; [assumption | assumption |].
    eapply Qle_trans; [|exact Hl]. discriminate.
Qed.

Lemma think_time_in_range_witness :
  (1 <= VibeZUser.wait_time (1 # 4))%Q
  /\ (VibeZUser.wait_time 1 <= 5)%Q
  /\ (0 <= between 0 (7 # 2) 0)%Q.
Proof.
  split_and!.
  - apply (think_time_in_range (1 # 4)); discriminate.
  - apply (think_time_in_range 1%Q); discriminate.
  - apply (proj1 (think_time_in_range 0%Q ltac:(discriminate) ltac:(discriminate))
             0%Q (7 # 2)%Q ltac:(discriminate)).
    discriminate.
Defined.

(** ** Probabilities over equally likely draws *)

Section two_draws.
Context {A B : Type} (ev1 : A -> bool) (ev2 : B -> bool).

Lemma count_pair_left (a : A) (second : list B) :
  count (both ev1 ev2) (map (fun b => (a, b)) second)
  = if ev1 a then count ev2 second else 0%nat.
Proof.
  unfold count, both.
  induction second as [|b second IH]; cbn [map List.filter fst snd].
  - destruct (ev1 a); reflexivity.
  - destruct (ev1 a), (ev2 b); cbn [andb length] in *; congruence.
Qed.

Lemma count_two_draws (first : list A) (second : list B) :
  count (both ev1 ev2) (two_draws first second)
  = (count ev1 first * count ev2 second)%nat.
Proof.
  unfold two_draws.
  induction first as [|a first IH]; [reflexivity|].
  cbn [list_prod]. unfold count in *.
  rewrite List.filter_app, length_app, IH.
  pose proof (count_pair_left a second) as Ha. unfold count in Ha.
  rewrite Ha. cbn [List.filter].
  destruct (ev1 a); cbn [length]; lia.
Qed.

(** The second draw is independent of the first. *)
Lemma prob_two_draws (first : list A) (second : list B) :
  (prob (two_draws first second) (both ev1 ev2)
   == prob first ev1 * prob second ev2)%Q.
Proof.
  unfold prob. rewrite count_two_draws.
  unfold two_draws. rewrite length_prod.
  rewrite !Nat2Z.inj_mul, !inject_Z_mult.
  unfold Qdiv. rewrite Qinv_mult_distr. ring.
Qed.
End two_draws.

Lemma chaos_action_cases (i : nat) :
  (i < 3)%nat ->
  (i = 0%nat /\ VibeZUser.chaos_action i = Ok "latency")
  \/ (i = 1%nat /\ VibeZUser.chaos_action i = Ok "drop")
  \/ (i = 2%nat /\ VibeZUser.chaos_action i = Ok "normal").
Proof.
  intros Hi.
  destruct i as [|[|[|i]]]; [auto | auto | auto | lia].
Qed.

Lemma count_ext {A} (ev1 ev2 : A -> bool) (space : list A) :
  (forall x, ev1 x = ev2 x) -> count ev1 space = count ev2 space.
Proof.
  intros Hext. unfold count. f_equal. apply List.filter_ext. exact Hext.
Qed.

Lemma prob_ext {A} (ev1 ev2 : A -> bool) (space : list A) :
  (forall x, ev1 x = ev2 x) -> prob space ev1 = prob space ev2.
Proof. intros Hext. unfold prob. by rewrite (count_ext ev1 ev2). Qed.

(** The request a run has issued tells the branch it went through: the run
    of the chaos task on the draw [i] goes through the branch of the label
    drawn and through no other. *)
Lemma chaos_monkey_takes_drawn (i : nat) (r : Q) (answer : result response)
    (label other : string) :
  (i < length VibeZUser.chaos_actions)%nat ->
  VibeZUser.chaos_action i = Ok label ->
  VibeZUser.took_branch other (VibeZUser.chaos_monkey i r answer) = true
  <-> other = label.
Proof.
  intros Hi Hlabel. cbn in Hi.
  unfold VibeZUser.took_branch, VibeZUser.branch_name.
  destruct (chaos_action_cases i Hi) as [[-> _] | [[-> _] | [-> _]]];
    injection Hlabel as <-;
    (destruct (String.eqb other "latency") eqn:H1;
     [apply String.eqb_eq in H1 as -> | apply String.eqb_neq in H1;
      destruct (String.eqb other "drop") eqn:H2;
      [apply String.eqb_eq in H2 as -> | apply String.eqb_neq in H2;
       destruct (String.eqb other "normal") eqn:H3;
       [apply String.eqb_eq in H3 as -> | apply String.eqb_neq in H3]]]);
    destruct answer; cbn; split; intros H;
    try discriminate H; try reflexivity; try congruence.
Qed.

(** A task other than the chaos task goes through none of its branches. *)
Lemma step_is_chaos_branch (tasks : list (string * nat)) (label : string)
    (r : Q) (answer : result response) (p : nat * nat) :
  label = "latency" \/ label = "drop" \/ label = "normal" ->
  step_takes_branch tasks label r answer p
  = both (selects tasks "chaos_monkey")
         (fun i => VibeZUser.took_branch label
                     (VibeZUser.chaos_monkey i r answer)) p.
Proof.
  intros Hlabel. unfold step_takes_branch, both, selects.
  destruct (select_action tasks p.1) as [name | e]; [|reflexivity].
  unfold VibeZUser.task_of.
  destruct (String.eqb name "index") eqn:H1;
    [apply String.eqb_eq in H1 as ->|].
  { destruct Hlabel as [-> | [-> | ->]]; destruct answer; reflexivity. }
  destruct (String.eqb name "view_room") eqn:H2;
    [apply String.eqb_eq in H2 as ->|].
  { destruct Hlabel as [-> | [-> | ->]]; destruct answer; reflexivity. }
  destruct (String.eqb name "auth_callback_smoke") eqn:H3;
    [apply String.eqb_eq in H3 as ->|].
  { destruct Hlabel as [-> | [-> | ->]]; destruct answer; reflexivity. }
  destruct (String.eqb name "websocket_fallback_simulation") eqn:H4;
    [apply String.eqb_eq in H4 as ->|].
  { destruct Hlabel as [-> | [-> | ->]]; destruct answer as [[s] | e];
      try reflexivity;
      rewrite ws_fallback_log; unfold VibeZUser.took_branch; cbn;
      destruct (bool_decide _); reflexivity. }
  destruct (String.eqb name "chaos_monkey") eqn:H5; reflexivity.
Qed.

(** C9.  Whatever the request does and whatever [random.uniform] draws, the
    chaos task goes through the branch of the label that [random.choice]
    drew among "latency", "drop" and "normal", and through no other; under
    a uniform draw of the index over the list of labels each of the three
    branches is taken with probability 1/3; and for every table of task
    weights, the step of a user is the chaos task in a given branch with
    the probability that the chaos task is selected times 1/3: the branch
    does not depend on the weights. *)
Theorem chaos_branch_uniform (r : Q) (answer : result response) :
  (forall i : nat,
      (i < length VibeZUser.chaos_actions)%nat ->
      exists label,
        VibeZUser.chaos_action i = Ok label
        /\ (label = "latency" \/ label = "drop" \/ label = "normal")
        /\ (forall other,
               VibeZUser.took_branch other (VibeZUser.chaos_monkey i r answer)
               = true
               <-> other = label))
  /\ (forall label : string,
         label = "latency" \/ label = "drop" \/ label = "normal" ->
         (prob (randbelow (length VibeZUser.chaos_actions))
               (fun i => VibeZUser.took_branch label
                           (VibeZUser.chaos_monkey i r answer))
          == 1 # 3)%Q)
  /\ (forall (tasks : list (string * nat)) (label : string),
         label = "latency" \/ label = "drop" \/ label = "normal" ->
         (prob (two_draws (randbelow (length (slots tasks)))
                          (randbelow (length VibeZUser.chaos_actions)))
               (step_takes_branch tasks label r answer)
          == prob (randbelow (length (slots tasks)))
                  (selects tasks "chaos_monkey")
             * (1 # 3))%Q).
Proof.
  assert (Hthird : forall label : string,
             label = "latency" \/ label = "drop" \/ label = "normal" ->
             (prob (randbelow (length VibeZUser.chaos_actions))
                   (fun i => VibeZUser.took_branch label
                               (VibeZUser.chaos_monkey i r answer))
              == 1 # 3)%Q).
  { intros label [-> | [-> | ->]]; destruct answer; reflexivity. }
  split_and!.
  - intros i Hi.
    destruct (chaos_action_cases i Hi) as [[Hi0 H] | [[Hi0 H] | [Hi0 H]]];
      eexists; (split; [exact H|]); (split; [auto|]);
      intros other; by apply chaos_monkey_takes_drawn.
  - exact Hthird.
  - intros tasks label Hlabel.
    rewrite (prob_ext _ _ _ (fun p =>
               step_is_chaos_branch tasks label r answer p Hlabel)).
    rewrite prob_two_draws, (Hthird label Hlabel). reflexivity.
Qed.

Lemma chaos_branch_uniform_witness :
  (exists label,
      VibeZUser.chaos_action 2 = Ok label
      /\ VibeZUser.took_branch label
           (VibeZUser.chaos_monkey 2 (1 # 2) (Raise ConnectionError))
         = true)
  /\ (prob (randbelow (length VibeZUser.chaos_actions))
           (fun i => VibeZUser.took_branch "drop"
                       (VibeZUser.chaos_monkey i 0 (Raise ReadTimeout)))
      == 1 # 3)%Q
  /\ (prob (two_draws (randbelow (length (slots VibeZUser.tasks)))
                      (randbelow (length VibeZUser.chaos_actions)))
           (step_takes_branch VibeZUser.tasks "latency" 0
                              (Ok {| status_code := 200 |}))
      == prob (randbelow (length (slots VibeZUser.tasks)))
              (selects VibeZUser.tasks "chaos_monkey")
         * (1 # 3))%Q.
Proof.
  split_and!.
  - destruct (proj1 (chaos_branch_uniform (1 # 2) (Raise ConnectionError))
                2%nat ltac:(cbn; lia)) as (label & Hl & _ & Hb).
    exists label. split; [exact Hl|]. by apply Hb.
  - apply (proj1 (proj2 (chaos_branch_uniform 0 (Raise ReadTimeout))) "drop").
    right; left; reflexivity.
  - apply (proj2 (proj2 (chaos_branch_uniform 0 (Ok {| status_code := 200 |})))
             VibeZUser.tasks "latency").
    left; reflexivity.
Defined.

(** With the configured weights a step of a user is the chaos task in its
    "drop" branch with probability 1/63. *)
Lemma chaos_drop_step_configured :
  (prob (two_draws (randbelow (length (slots VibeZUser.tasks)))
                   (randbelow (length VibeZUser.chaos_actions)))
        (step_takes_branch VibeZUser.tasks "drop" 0 (Raise ReadTimeout))
   == 1 # 63)%Q.
Proof. vm_compute. reflexivity. Qed.

(** With the configured weights the chaos task is selected with probability
    1/21, and each of its branches is taken with probability 1/63. *)
Lemma chaos_selected_configured :
  (prob (randbelow (length (slots VibeZUser.tasks)))
        (selects VibeZUser.tasks "chaos_monkey") == 1 # 21)%Q.
Proof. vm_compute. reflexivity. Qed.

(** * Further properties of the load shape *)

(** ** Stage dicts of any content *)

Lemma scan_passed (stage : gmap string Z) (rest : list (gmap string Z))
    (run_time : Q) :
  passed run_time stage ->
  WaveShape.scan (stage :: rest) run_time = WaveShape.scan rest run_time.
Proof.
  intros (d & Hd & Hle). cbn [WaveShape.scan]. unfold getitem. rewrite Hd.
  cbn [mbind result_bind]. apply float_lt_int_false in Hle. by rewrite Hle.
Qed.

Lemma scan_skip_passed (pre rest : list (gmap string Z)) (run_time : Q) :
  Forall (passed run_time) pre ->
  WaveShape.scan (pre ++ rest) run_time = WaveShape.scan rest run_time.
Proof.
  induction 1 as [|stage pre Hp _ IH]; [reflexivity|].
  cbn [app]. rewrite scan_passed by assumption. exact IH.
Qed.

Lemma ended_passed (run_time : Q) (s : Z * Z * Z) :
  ended run_time s -> passed run_time (stage_of s).
Proof.
  intros He. exists s.1.1. split; [|exact He].
  unfold stage_of, WaveShape.stage. by simplify_map_eq.
Qed.

(** The keys are read in the order duration, users, spawn_rate, and only on
    the stages the loop reaches: the first stage that is open, or that has no
    duration, raises [KeyError] for the first key it lacks. *)
Theorem tick_missing_key (pre rest : list (gmap string Z))
    (stage : gmap string Z) (elapsed : Q) :
  Forall (passed elapsed) pre ->
  let self := {| WaveShape.stages := pre ++ stage :: rest |} in
  (stage !! "duration" = None ->
   (WaveShape.tick self elapsed).1 = Raise (KeyError "duration"))
  /\ (forall d,
         stage !! "duration" = Some d -> (elapsed < inject_Z d)%Q ->
         stage !! "users" = None ->
         (WaveShape.tick self elapsed).1 = Raise (KeyError "users"))
  /\ (forall d u,
         stage !! "duration" = Some d -> (elapsed < inject_Z d)%Q ->
         stage !! "users" = Some u ->
         stage !! "spawn_rate" = None ->
         (WaveShape.tick self elapsed).1 = Raise (KeyError "spawn_rate")).
Proof.
  intros Hpre self. unfold self, WaveShape.tick. cbn [fst WaveShape.stages].
  rewrite scan_skip_passed by assumption. cbn [WaveShape.scan]. unfold getitem.
  split_and!.
  - intros ->. reflexivity.
  - intros d -> Hd ->. apply float_lt_int_spec in Hd.
    cbn [mbind result_bind]. by rewrite Hd.
  - intros d u -> Hd -> ->. apply float_lt_int_spec in Hd.
    cbn [mbind result_bind]. by rewrite Hd.
Qed.

Lemma tick_missing_key_witness :
  (WaveShape.tick
     {| WaveShape.stages :=
          [ {[ "duration" := 60 ]}; {[ "users" := 5 ]}; ∅ ] |} 90).1
  = Raise (KeyError "duration")
  /\ (WaveShape.tick
        {| WaveShape.stages :=
             [ {[ "duration" := 60 ]}; {[ "duration" := 120 ]} ] |} 90).1
     = Raise (KeyError "users").
Proof.
  split.
  - apply (proj1 (tick_missing_key [ {[ "duration" := 60 ]} ] [ ∅ ]
                    {[ "users" := 5 ]} 90%Q
                    ltac:(repeat constructor; exists 60; split;
                          [reflexivity | discriminate]))).
    reflexivity.
  - apply (proj1 (proj2 (tick_missing_key [ {[ "duration" := 60 ]} ] []
                    {[ "duration" := 120 ]} 90%Q
                    ltac:(repeat constructor; exists 60; split;
                          [reflexivity | discriminate]))) 120);
      reflexivity.
Defined.

(** A stage whose boundary has passed is skipped on its duration entry alone,
    and nothing after the first open stage is read: dicts that lack users or
    spawn_rate before it, and dicts of any content after it, do not change
    the result. *)
Theorem tick_reads_lazily (pre post : list (gmap string Z))
    (stage : gmap string Z) (d u s : Z) (elapsed : Q) :
  Forall (passed elapsed) pre ->
  stage !! "duration" = Some d ->
  stage !! "users" = Some u ->
  stage !! "spawn_rate" = Some s ->
  (elapsed < inject_Z d)%Q ->
  (WaveShape.tick {| WaveShape.stages := pre ++ stage :: post |} elapsed).1
  = Ok (Some (u, s)).
Proof.
  intros Hpre Hd Hu Hs Hlt. unfold WaveShape.tick. cbn [fst WaveShape.stages].
  rewrite scan_skip_passed by assumption. cbn [WaveShape.scan]. unfold getitem.
  rewrite Hd. cbn [mbind result_bind]. apply float_lt_int_spec in Hlt.
  rewrite Hlt, Hu. cbn [mbind result_bind]. rewrite Hs. reflexivity.
Qed.

Lemma tick_reads_lazily_witness :
  (WaveShape.tick
     {| WaveShape.stages :=
          [ {[ "duration" := 60 ]};
            {[ "duration" := 120; "users" := 500; "spawn_rate" := 20;
               "peak" := 1 ]};
            ∅ ] |} (125 # 2)).1
  = Ok (Some (500, 20)).
Proof.
  apply (tick_reads_lazily [ {[ "duration" := 60 ]} ] [ ∅ ]
           {[ "duration" := 120; "users" := 500; "spawn_rate" := 20;
              "peak" := 1 ]} 120 500 20 (125 # 2)%Q);
    try reflexivity.
  repeat constructor. exists 60. split; [reflexivity | discriminate].
Defined.

(** ** The end of the run *)

Lemma scan_none_passed (stages : list (gmap string Z)) (run_time : Q) :
  WaveShape.scan stages run_time = Ok None <->
  Forall (passed run_time) stages.
Proof.
  split.
  - induction stages as [|stage stages IH]; [constructor|].
    cbn [WaveShape.scan]. unfold getitem.
    destruct (stage !! "duration") as [d|] eqn:Hd; [|discriminate].
    cbn [mbind result_bind].
    destruct (float_lt_int run_time d) eqn:Hlt.
    + destruct (stage !! "users"); [|discriminate]. cbn [mbind result_bind].
      destruct (stage !! "spawn_rate"); discriminate.
    + intros Hrest. constructor; [|by apply IH].
      exists d. split; [assumption | by apply float_lt_int_false].
  - intros Hall. rewrite <- (app_nil_r stages).
    by rewrite scan_skip_passed.
Qed.

Lemma passed_later (t t' : Q) (stage : gmap string Z) :
  (t <= t')%Q -> passed t stage -> passed t' stage.
Proof.
  intros Htt (d & Hd & Hle). exists d. split; [assumption|].
  eapply Qle_trans; eassumption.
Qed.

(** Once [tick] has returned [None] it returns [None] at every later time,
    whatever the stage dicts hold and in whatever order their boundaries
    come: the end of the run is final. *)
Theorem tick_none_is_final (self : WaveShape.t) (elapsed later : Q) :
  (WaveShape.tick self elapsed).1 = Ok None ->
  (elapsed <= later)%Q ->
  (WaveShape.tick self later).1 = Ok None.
Proof.
  unfold WaveShape.tick. cbn [fst]. rewrite !scan_none_passed.
  intros Hall Hle. eapply Forall_impl; [exact Hall|].
  intros stage. by apply passed_later.
Qed.

Lemma tick_none_is_final_witness :
  (WaveShape.tick WaveShape.configured (1201 # 4)).1 = Ok None.
Proof.
  apply (tick_none_is_final WaveShape.configured 300 (1201 # 4)).
  - reflexivity.
  - discriminate.
Defined.

(** On well-formed stages [tick] never raises and returns nothing of its
    own: a pair it returns is the (users, spawn_rate) of a stage of the list
    that is still open, and it returns [None] only when every stage has
    ended. *)
Theorem tick_returns_listed_stage (l : list (Z * Z * Z)) (elapsed : Q) :
  (forall e, (WaveShape.tick (shape_of l) elapsed).1 <> Raise e)
  /\ (forall u s,
         (WaveShape.tick (shape_of l) elapsed).1 = Ok (Some (u, s)) ->
         exists d, (d, u, s) ∈ l /\ (elapsed < inject_Z d)%Q)
  /\ ((WaveShape.tick (shape_of l) elapsed).1 = Ok None ->
      Forall (ended elapsed) l).
Proof.
  unfold WaveShape.tick, shape_of. cbn [fst WaveShape.stages].
  destruct (scan_cases l elapsed)
    as [[Hall ->] | (pre & d & u & s & post & -> & Hpre & Hd & ->)].
  - split_and!; [discriminate | discriminate | done].
  - split_and!; [discriminate | | discriminate].
    intros u' s' [= <- <-]. exists d. split; [|assumption].
    apply elem_of_app. right. apply elem_of_cons. by left.
Qed.

Lemma tick_returns_listed_stage_witness :
  exists d, (d, 500, 20) ∈ spec_example /\ (100 < inject_Z d)%Q.
Proof.
  apply (proj1 (proj2 (tick_returns_listed_stage spec_example 100)) 500 20).
  reflexivity.
Defined.

(** ** Boundaries in increasing order, and boundaries out of order *)

Lemma inject_Z_le (a b : Z) : a <= b -> (inject_Z a <= inject_Z b)%Q.
Proof. intros H. by rewrite <- Zle_Qle. Qed.

Lemma sorted_before (pre post : list Z) (x : Z) :
  Sorted Z.lt (pre ++ x :: post) -> Forall (fun y => y < x) pre.
Proof.
  intros Hs. apply Sorted_StronglySorted in Hs; [|intros a b c; lia].
  induction pre as [|y pre IH]; [constructor|].
  cbn [app] in Hs. apply StronglySorted_inv in Hs as [Hs Hy].
  constructor; [|by apply IH].
  rewrite List.Forall_forall in Hy. apply Hy.
  apply in_or_app. right. by left.
Qed.

(** When the boundaries increase strictly along the list, each stage holds
    from the boundary of the stage before it up to its own boundary: between
    the two, [tick] returns its (users, spawn_rate). *)
Theorem tick_sorted_interval (pre post : list (Z * Z * Z))
    (d0 u0 s0 d u s : Z) (elapsed : Q) :
  Sorted Z.lt (durations (pre ++ (d0, u0, s0) :: (d, u, s) :: post)) ->
  (inject_Z d0 <= elapsed)%Q ->
  (elapsed < inject_Z d)%Q ->
  (WaveShape.tick (shape_of (pre ++ (d0, u0, s0) :: (d, u, s) :: post))
                  elapsed).1
  = Ok (Some (u, s)).
Proof.
  intros Hsorted Hd0 Hd. unfold WaveShape.tick, shape_of.
  cbn [fst WaveShape.stages].
  replace (pre ++ (d0, u0, s0) :: (d, u, s) :: post)
    with ((pre ++ [(d0, u0, s0)]) ++ (d, u, s) :: post)
    by (by rewrite <- app_assoc).
  apply scan_first_open; [|assumption].
  apply Forall_app. split; [|repeat constructor; exact Hd0].
  unfold durations in Hsorted. rewrite fmap_app, fmap_cons in Hsorted.
  apply sorted_before in Hsorted. cbn [fst] in Hsorted.
  apply Forall_fmap in Hsorted. eapply Forall_impl; [exact Hsorted|].
  intros [[d' u'] s'] Hlt. unfold ended. cbn in *.
  eapply Qle_trans; [|exact Hd0]. apply inject_Z_le. lia.
Qed.

Lemma tick_sorted_interval_witness :
  (WaveShape.tick
     (shape_of [ (60, 100, 10); (120, 500, 20); (180, 1000, 50);
                 (240, 2000, 100); (300, 500, 50) ]) 180).1
  = Ok (Some (2000, 100)).
Proof.
  apply (tick_sorted_interval [ (60, 100, 10); (120, 500, 20) ]
           [ (300, 500, 50) ] 180 1000 50 240 2000 100 180%Q).
  - repeat constructor.
  - discriminate.
  - reflexivity.
Defined.

Lemma scan_drop_ended (pre post : list (Z * Z * Z)) (x : Z * Z * Z)
    (run_time : Q) :
  ended run_time x \/ (exists y, y ∈ pre /\ x.1.1 <= y.1.1) ->
  WaveShape.scan (stage_of <$> pre ++ x :: post) run_time
  = WaveShape.scan (stage_of <$> pre ++ post) run_time.
Proof.
  induction pre as [|[[d' u'] s'] pre IH]; intros Hx.
  - destruct Hx as [Hx | (y & Hy & _)]; [|by apply elem_of_nil in Hy].
    cbn [app]. apply (scan_skip [x]). by repeat constructor.
  - cbn [app]. rewrite !fmap_cons. unfold stage_of at 1 3. cbn [fst snd].
    rewrite !scan_stage.
    destruct (float_lt_int run_time d') eqn:Hd'; [reflexivity|].
    apply float_lt_int_false in Hd'. apply IH.
    destruct Hx as [Hx | (y & Hy & Hle)]; [by left|].
    apply elem_of_cons in Hy as [-> | Hy]; [|right; by exists y].
    left. unfold ended. cbn in Hle.
    eapply Qle_trans; [|exact Hd']. by apply inject_Z_le.
Qed.

(** A stage whose boundary does not exceed the boundary of a stage listed
    before it is never returned: at every elapsed time [tick] gives what it
    gives on the list without that stage. *)
Theorem tick_ignores_shadowed_stage (pre post : list (Z * Z * Z))
    (x y : Z * Z * Z) (elapsed : Q) :
  y ∈ pre ->
  x.1.1 <= y.1.1 ->
  (WaveShape.tick (shape_of (pre ++ x :: post)) elapsed).1
  = (WaveShape.tick (shape_of (pre ++ post)) elapsed).1.
Proof.
  intros Hy Hle. unfold WaveShape.tick, shape_of. cbn [fst WaveShape.stages].
  apply scan_drop_ended. right. by exists y.
Qed.

Lemma tick_ignores_shadowed_stage_witness :
  (WaveShape.tick (shape_of [ (60, 100, 10); (60, 500, 20); (60, 1000, 50) ])
                  45).1
  = (WaveShape.tick (shape_of [ (60, 100, 10); (60, 1000, 50) ]) 45).1.
Proof.
  apply (tick_ignores_shadowed_stage [ (60, 100, 10) ] [ (60, 1000, 50) ]
           (60, 500, 20) (60, 100, 10) 45%Q).
  - apply elem_of_cons. by left.
  - cbn. lia.
Defined.

(** ** The configured wave *)

(** The configured shape as a function of time: 100 users up to 60 s, 500 up
    to 120 s, 1000 up to 180 s, 2000 up to 240 s, 500 up to 300 s; a time
    below zero falls in the first stage.  It never asks for more than 2000
    users nor for a spawn rate above 100, and asks for 2000 users exactly from
    180 s to 240 s. *)
Theorem configured_wave (elapsed : Q) :
  ((elapsed < 60)%Q ->
   (WaveShape.tick WaveShape.configured elapsed).1 = Ok (Some (100, 10)))
  /\ ((60 <= elapsed)%Q -> (elapsed < 120)%Q ->
      (WaveShape.tick WaveShape.configured elapsed).1 = Ok (Some (500, 20)))
  /\ ((120 <= elapsed)%Q -> (elapsed < 180)%Q ->
      (WaveShape.tick WaveShape.configured elapsed).1 = Ok (Some (1000, 50)))
  /\ ((180 <= elapsed)%Q -> (elapsed < 240)%Q ->
      (WaveShape.tick WaveShape.configured elapsed).1 = Ok (Some (2000, 100)))
  /\ ((240 <= elapsed)%Q -> (elapsed < 300)%Q ->
      (WaveShape.tick WaveShape.configured elapsed).1 = Ok (Some (500, 50)))
  /\ (forall users spawn_rate,
         (WaveShape.tick WaveShape.configured elapsed).1
         = Ok (Some (users, spawn_rate)) ->
         100 <= users <= 2000 /\ 10 <= spawn_rate <= 100
         /\ (users = 2000 <-> (180 <= elapsed)%Q /\ (elapsed < 240)%Q)).
Proof.
  unfold WaveShape.tick, WaveShape.configured. cbn [fst WaveShape.stages].
  rewrite !scan_stage. cbn [WaveShape.scan].
  destruct (float_lt_int elapsed 60) eqn:H1;
    [apply float_lt_int_spec in H1 | apply float_lt_int_false in H1;
  destruct (float_lt_int elapsed 120) eqn:H2;
    [apply float_lt_int_spec in H2 | apply float_lt_int_false in H2;
  destruct (float_lt_int elapsed 180) eqn:H3;
    [apply float_lt_int_spec in H3 | apply float_lt_int_false in H3;
  destruct (float_lt_int elapsed 240) eqn:H4;
    [apply float_lt_int_spec in H4 | apply float_lt_int_false in H4;
  destruct (float_lt_int elapsed 300) eqn:H5;
    [apply float_lt_int_spec in H5 | apply float_lt_int_false in H5]]]]];
    unfold inject_Z in *;
    (split_and!;
     [ intros; try reflexivity; lra
     | intros; try reflexivity; lra
     | intros; try reflexivity; lra
     | intros; try reflexivity; lra
     | intros; try reflexivity; lra
     | intros users spawn_rate Heq; try discriminate Heq;
       injection Heq as <- <-;
       (split; [lia | split; [lia | split;
          [ intros Hu; try discriminate Hu; split; assumption
          | intros [Ha Hb]; try reflexivity; lra ]]]) ]).
Qed.

Lemma configured_wave_witness :
  (WaveShape.tick WaveShape.configured (-3)).1 = Ok (Some (100, 10))
  /\ (WaveShape.tick WaveShape.configured 240).1 = Ok (Some (500, 50))
  /\ 1000 <= 2000.
Proof.
  split_and!.
  - apply (proj1 (configured_wave (-3))). reflexivity.
  - apply (proj1 (proj2 (proj2 (proj2 (proj2 (configured_wave 240)))))).
    + discriminate.
    + reflexivity.
  - destruct (proj2 (proj2 (proj2 (proj2 (proj2 (configured_wave 150)))))
               1000 50 ltac:(reflexivity)) as [[_ Hhi] _].
    exact Hhi.
Defined.

(** * Further properties of the behaviour profile *)

Ltac log_cases H :=
  unfold records_success in H; cbn in H;
  rewrite ?elem_of_cons, ?elem_of_nil in H;
  repeat match type of H with
         | _ \/ _ => destruct H as [H | H]
         end;
  try discriminate H; try contradiction.

(** A task made of one GET and nothing else. *)
Lemma single_get (answer : result response) (url name : string) :
  (_ ← client_get answer url name None; mret tt)
  = Task [ Request url name None ]
         (match answer with Ok _ => Ok tt | Raise e => Raise e end).
Proof. destruct answer; reflexivity. Qed.

(** The page-load tasks ([index], [view_room], [auth_callback_smoke]) do not
    look at the response: they end normally on any status code, let an
    exception of the request through unchanged, and never mark the request
    as a success or a failure themselves. *)
Theorem plain_tasks_ignore_status :
  Forall (fun run : result response -> task unit =>
            (forall resp, outcome (run (Ok resp)) = Ok tt)
            /\ (forall e, outcome (run (Raise e)) = Raise e)
            /\ (forall answer,
                   ~ records_success (run answer)
                   /\ ~ records_failure (run answer)))
         [ VibeZUser.index; VibeZUser.view_room;
           VibeZUser.auth_callback_smoke ].
Proof.
  assert (Hget : forall url name,
             let run := fun answer : result response =>
               (_ ← client_get answer url name None; mret tt) : task unit in
             (forall resp, outcome (run (Ok resp)) = Ok tt)
             /\ (forall e, outcome (run (Raise e)) = Raise e)
             /\ (forall answer,
                    ~ records_success (run answer)
                    /\ ~ records_failure (run answer))).
  { intros url name run. unfold run. split_and!; [done | done |].
    intros answer. rewrite single_get.
    split; [intros H | intros [m H]]; log_cases H. }
  apply List.Forall_cons; [apply Hget|].
  apply List.Forall_cons; [apply Hget|].
  apply List.Forall_cons; [apply Hget|].
  apply List.Forall_nil.
Qed.

(** Whatever the request does and whichever branch the chaos task takes,
    every task of [VibeZUser] issues exactly one HTTP request each time it
    runs. *)
Theorem one_request_per_task (i : nat) (r : Q) (answer : result response) :
  (i < 3)%nat ->
  length (requests (VibeZUser.index answer)) = 1%nat
  /\ length (requests (VibeZUser.view_room answer)) = 1%nat
  /\ length (requests (VibeZUser.auth_callback_smoke answer)) = 1%nat
  /\ length (requests (VibeZUser.websocket_fallback_simulation answer))
     = 1%nat
  /\ length (requests (VibeZUser.chaos_monkey i r answer)) = 1%nat.
Proof.
  intros Hi. split_and!; try (destruct answer; reflexivity).
  - destruct answer as [[s] | e]; [|reflexivity].
    rewrite ws_fallback_log. unfold requests. cbn.
    destruct (bool_decide _); reflexivity.
  - destruct (chaos_action_cases i Hi) as [[-> _] | [[-> _] | [-> _]]];
      destruct answer; reflexivity.
Qed.

Lemma one_request_per_task_witness :
  length (requests (VibeZUser.chaos_monkey 1 (1 # 2) (Raise ConnectionError)))
  = 1%nat.
Proof.
  apply (one_request_per_task 1 (1 # 2) (Raise ConnectionError)). lia.
Defined.

(** The chaos task lets an exception of its request through in the
    "latency" and "normal" branches and only there; on a response it ends
    normally in every branch; and it never marks a success or a failure. *)
Theorem chaos_monkey_outcome (i : nat) (r : Q) (answer : result response) :
  (i < 3)%nat ->
  let run := VibeZUser.chaos_monkey i r answer in
  (forall e,
      outcome run = Raise e
      <-> answer = Raise e /\ VibeZUser.chaos_action i <> Ok "drop")
  /\ (outcome run = Ok tt
      <-> (exists resp, answer = Ok resp)
          \/ VibeZUser.chaos_action i = Ok "drop")
  /\ ~ records_success run
  /\ ~ records_failure run.
Proof.
  intros Hi.
  destruct (chaos_action_cases i Hi) as [[-> _] | [[-> _] | [-> _]]];
    destruct answer as [resp | e0]; cbn;
    (split_and!;
     [ intros e; split; [intros H | intros [H1 H2]];
       try discriminate; try (injection H as ->; split; [reflexivity | discriminate]);
       try congruence
     | split; [intros H | intros [[resp' H] | H]];
       try discriminate; try reflexivity; eauto
     | intros H; log_cases H
     | intros [m H]; log_cases H ]).
Qed.

Lemma chaos_monkey_outcome_witness :
  outcome (VibeZUser.chaos_monkey 2 0 (Raise ReadTimeout)) = Raise ReadTimeout
  /\ outcome (VibeZUser.chaos_monkey 0 0 (Ok {| status_code := 503 |}))
     = Ok tt.
Proof.
  split.
  - apply (proj1 (chaos_monkey_outcome 2 0 (Raise ReadTimeout) ltac:(lia))
             ReadTimeout).
    split; [reflexivity | discriminate].
  - apply (proj1 (proj2 (chaos_monkey_outcome 0 0
                           (Ok {| status_code := 503 |}) ltac:(lia)))).
    left. eexists. reflexivity.
Defined.

(** The polling task records a verdict exactly when its request came back
    with a response, never two verdicts for one request, and when the request
    raised instead, the exception leaves the task with nothing recorded. *)
Theorem ws_fallback_verdict (answer : result response) :
  let run := VibeZUser.websocket_fallback_simulation answer in
  (records_success run \/ records_failure run
   <-> exists resp, answer = Ok resp)
  /\ ~ (records_success run /\ records_failure run)
  /\ (forall e, answer = Raise e -> outcome run = Raise e).
Proof.
  destruct answer as [[s] | e0]; cbn zeta.
  - rewrite ws_fallback_log. unfold records_success, records_failure.
    cbn [log outcome]. case_bool_decide as Hs; split_and!.
    + split; [eauto|]. intros _. left. rewrite !elem_of_cons. auto.
    + intros [_ [m H]]. log_cases H.
    + discriminate.
    + split; [eauto|]. intros _. right. eexists. rewrite !elem_of_cons. auto.
    + intros [H _]. log_cases H.
    + discriminate.
  - split_and!.
    + split; [intros [H | [m H]]; log_cases H | intros [resp H]; discriminate].
    + intros [H _]. log_cases H.
    + intros e [= ->]. reflexivity.
Qed.

Lemma ws_fallback_verdict_witness :
  outcome (VibeZUser.websocket_fallback_simulation (Raise ConnectionError))
  = Raise ConnectionError.
Proof.
  apply (proj2 (proj2 (ws_fallback_verdict (Raise ConnectionError)))).
  reflexivity.
Defined.

(** The failure message of the polling task carries the status code in
    decimal, and tells the codes apart: a message recorded for one status is
    not recorded for any other. *)
Theorem ws_fallback_failure_message (s s' : Z) (message : string) :
  Failure message
    ∈ log (VibeZUser.websocket_fallback_simulation (Ok {| status_code := s |})) ->
  message = "Unexpected status: " +:+ pretty s
  /\ (Failure message
        ∈ log (VibeZUser.websocket_fallback_simulation
                 (Ok {| status_code := s' |})) ->
      s' = s).
Proof.
  assert (Hmsg : forall c m,
    Failure m
      ∈ log (VibeZUser.websocket_fallback_simulation (Ok {| status_code := c |})) ->
    m = "Unexpected status: " +:+ pretty c).
  { intros c m. rewrite ws_fallback_log. cbn [log].
    destruct (bool_decide _); rewrite !elem_of_cons, elem_of_nil;
      intros [H | [H | []]]; try discriminate H.
    by injection H. }
  intros Hs. split; [by apply Hmsg|].
  intros Hs'. apply Hmsg in Hs, Hs'. rewrite Hs in Hs'.
  apply (inj (String.app "Unexpected status: ")) in Hs'.
  symmetry. by apply (inj pretty).
Qed.

Lemma ws_fallback_failure_message_witness :
  "Unexpected status: 500" = "Unexpected status: " +:+ pretty 500.
Proof.
  apply (ws_fallback_failure_message 500 500 "Unexpected status: 500").
  rewrite ws_fallback_log. cbn. rewrite !elem_of_cons. auto.
Defined.

(** Among the branches of the chaos task only "latency" sleeps and only
    "drop" puts a timeout on its request; every branch calls /api/health.
    This holds whether the request succeeds or raises. *)
Theorem chaos_monkey_branches (i : nat) (r : Q) (answer : result response) :
  (i < 3)%nat ->
  let run := VibeZUser.chaos_monkey i r answer in
  (sleeps run <-> VibeZUser.chaos_action i = Ok "latency")
  /\ (sets_timeout run <-> VibeZUser.chaos_action i = Ok "drop")
  /\ (forall url name timeout,
         Request url name timeout ∈ log run -> url = "/api/health").
Proof.
  intros Hi.
  destruct (chaos_action_cases i Hi) as [[-> _] | [[-> _] | [-> _]]];
    destruct answer as [resp | e0]; unfold sleeps, sets_timeout; cbn;
    (split_and!;
     [ split; [intros [p H]; log_cases H; try reflexivity
              | intros H; try discriminate H;
                eexists; rewrite !elem_of_cons; auto ]
     | split; [intros (u & n & p & H); log_cases H; try reflexivity
              | intros H; try discriminate H;
                eexists _, _, _; rewrite !elem_of_cons; auto ]
     | intros u n p H; log_cases H; congruence ]).
Qed.

Lemma chaos_monkey_branches_witness :
  sleeps (VibeZUser.chaos_monkey 0 (1 # 2) (Raise ReadTimeout)).
Proof.
  apply (proj1 (chaos_monkey_branches 0 (1 # 2) (Raise ReadTimeout)
                  ltac:(lia))).
  reflexivity.
Defined.
